(** * Simple stocks: the trade-history engine of [src/main.py]

    A shallow embedding of the classes [Trade], [Stock] and
    [StockExchangeEngine], and the properties of the price recalculation,
    of the per-stock ratios and of the registry operations.

    Conventions of the embedding.
    - Python [int] values (quantities, trade prices, par values, dividends)
      are [Z].
    - A value produced by Python's true division [/] is a [float]; it is
      represented by the exact rational ([Q]) that the division rounds, so
      the ticker price of a stock is a [Q].  Rounding to binary64 and
      [OverflowError] on huge operands are outside the model.
    - [datetime] and [timedelta] values are [Z] counts of microseconds.
    - A method is a function from the receiver (and the world) to the raised
      or returned value together with the receiver (and the world) after the
      call: an exception does not undo earlier assignments.
    - [datetime.now()] reads the system clock, which is part of the
      [World].
    - [math.pow] is a parameter of [get_all_share_index]: its binary64
      arithmetic is not modelled. *)

From Stdlib Require Import ZArith QArith Qabs Sorted Lia Lqa.
From stdpp Require Import gmap strings list fin_maps sorting.

(** ** Exceptions and results *)

Inductive exn : Type :=
| ZeroDivisionError
| ValueError
| OverflowError.

Inductive result (A : Type) : Type :=
| Ok (a : A)
| Raise (e : exn).

Arguments Ok {A} a.
Arguments Raise {A} e.

(** Python's [a / b] on numbers: [ZeroDivisionError] when [b] is zero. *)
Definition truediv (a b : Q) : result Q :=
  if Qeq_bool b 0 then Raise ZeroDivisionError else Ok (a / b)%Q.

(** ** The system clock *)

Definition datetime := Z.
Definition timedelta := Z.

(** [timedelta(minutes=m)], in microseconds. *)
Definition timedelta_minutes (m : Z) : timedelta := (m * 60 * 1000000)%Z.

(** The world a method runs in: the instant returned by the [n]-th read of
    the system clock, and the number of reads done so far. *)
Record World : Type := mkWorld {
  clock : nat -> datetime;
  reads : nat
}.

(** [datetime.now()] *)
Definition datetime_now (w : World) : datetime * World :=
  (clock w (reads w), mkWorld (clock w) (S (reads w))).

(** The instant the next read of the clock returns, and the world after
    that read. *)
Definition next_instant (w : World) : datetime := fst (datetime_now w).
Definition after_read (w : World) : World := snd (datetime_now w).

(** A world whose clock shows the instants of [l] at its successive reads,
    and [last] from then on. *)
Definition world_of (l : list datetime) (last : datetime) : World :=
  mkWorld (fun n => nth n l last) 0.

(** ** class Trade *)

Module Trade.

Record t : Type := mk {
  symbol : string;
  timestamp : datetime;
  quantity : Z;
  _buyVsSell : bool;
  price : Z
}.

(** [Trade.__init__]: stores its arguments, checks nothing. *)
Definition init (symbol : string) (ts : datetime) (quantity : Z)
    (buyVsSell : bool) (price : Z) : t :=
  mk symbol ts quantity buyVsSell price.

Definition isSale (self : t) : bool := negb (_buyVsSell self).

Definition isPurchase (self : t) : bool := _buyVsSell self.

End Trade.

(** ** class Stock *)

Module Stock.

Record t : Type := mk {
  symbol : string;
  trades : list Trade.t;
  price : Q;
  preferred : bool;
  par_value : Z;
  last_dividend : Z;
  fixed_dividend : Q
}.

(** [Stock.__init__] *)
Definition init (symbol : string) (initial_price : Z)
    (preferredVsCommon : bool) (par_value last_dividend : Z)
    (fixed_dividend : Q) : t :=
  mk symbol [] (inject_Z initial_price) preferredVsCommon par_value
     last_dividend fixed_dividend.

(** [self.price = p] *)
Definition set_price (p : Q) (self : t) : t :=
  mk (symbol self) (trades self) p (preferred self) (par_value self)
     (last_dividend self) (fixed_dividend self).

(** [self.trades.append(trade)] *)
Definition append_trade (trade : Trade.t) (self : t) : t :=
  mk (symbol self) (trades self ++ [trade]) (price self) (preferred self)
     (par_value self) (last_dividend self) (fixed_dividend self).

Definition fifteen_minutes : timedelta := timedelta_minutes 15.

(** The loop of [recalculate_price] (lines 123-130): it walks the list from
    its first element and leaves at the first trade whose age exceeds
    fifteen minutes.  Returns [(total_qty, total_traded_value)]. *)
Fixpoint scan (current_time : datetime) (ts : list Trade.t)
    (total_qty total_traded_value : Z) : Z * Z :=
  match ts with
  | [] => (total_qty, total_traded_value)
  | t :: rest =>
      let time_diff := (current_time - Trade.timestamp t)%Z in
      if (time_diff <=? fifteen_minutes)%Z then
        scan current_time rest
          (total_qty + Trade.quantity t)%Z
          (total_traded_value + Trade.price t * Trade.quantity t)%Z
      else (total_qty, total_traded_value)
  end.

(** The part of [recalculate_price] after the clock has been read
    (lines 121-136). *)
Definition recalculate_price_at (current_time : datetime) (self : t)
    : result Q * t :=
  let '(total_qty, total_traded_value) :=
    scan current_time (trades self) 0 0 in
  if (0 <? total_qty)%Z then
    match truediv (inject_Z total_traded_value) (inject_Z total_qty) with
    | Ok p => (Ok p, set_price p self)
    | Raise e => (Raise e, self)
    end
  else (Ok (price self), self).

(** [Stock.recalculate_price]: takes no argument besides [self]; the
    instant it works with is read from the system clock. *)
Definition recalculate_price (self : t) (w : World)
    : result Q * t * World :=
  let '(current_time, w') := datetime_now w in
  let '(r, self') := recalculate_price_at current_time self in
  (r, self', w').

(** [Stock.record_trade] *)
Definition record_trade (trade : Trade.t) (self : t) (w : World)
    : result unit * t * World :=
  let self1 := append_trade trade self in
  let '(r, self2, w') := recalculate_price self1 w in
  match r with
  | Ok _ => (Ok tt, self2, w')
  | Raise e => (Raise e, self2, w')
  end.

(** [Stock.get_dividend_yield] *)
Definition get_dividend_yield (self : t) : result Q * t :=
  if preferred self then
    (truediv (inject_Z (par_value self * last_dividend self)) (price self),
     self)
  else
    (truediv (inject_Z (last_dividend self)) (price self), self).

(** [Stock.get_price_earnings_ratio] *)
Definition get_price_earnings_ratio (self : t) : result Q * t :=
  if (0 <? last_dividend self)%Z then
    (truediv (price self) (inject_Z (last_dividend self)), self)
  else (Raise ZeroDivisionError, self).

End Stock.

(** ** class StockExchangeEngine *)

Module StockExchangeEngine.

Record t : Type := mk {
  all_stocks : gmap string Stock.t
}.

(** [StockExchangeEngine.__init__] *)
Definition init : t := mk ∅.

(** [StockExchangeEngine.add_stock] *)
Definition add_stock (symbol : string) (initial_price : Z)
    (preferredVsCommon : bool) (par_value last_dividend : Z)
    (fixed_dividend : Q) (self : t) : result unit * t :=
  match all_stocks self !! symbol with
  | Some _ => (Ok tt, self)
  | None =>
      (Ok tt,
       mk (<[symbol := Stock.init symbol initial_price preferredVsCommon
                         par_value last_dividend fixed_dividend]>
             (all_stocks self)))
  end.

(** [StockExchangeEngine.record_trade]: the stock found under [symbol] is
    updated in place, so the registry holds it as it is after the call. *)
Definition record_trade (symbol : string) (trade : Trade.t) (self : t)
    (w : World) : result unit * t * World :=
  match all_stocks self !! symbol with
  | Some stock =>
      let '(r, stock', w') := Stock.record_trade trade stock w in
      (r, mk (<[symbol := stock']> (all_stocks self)), w')
  | None => (Ok tt, self, w)
  end.

(** [StockExchangeEngine.get_symbols] *)
Definition get_symbols (self : t) : gset string := dom (all_stocks self).

(** [StockExchangeEngine.get_stock] *)
Definition get_stock (symbol : string) (self : t) : option Stock.t :=
  all_stocks self !! symbol.

(** The product accumulated by the loop of [get_all_share_index]. *)
Definition prices_product (self : t) : Q :=
  map_fold (fun _ stock acc => (acc * Stock.price stock)%Q) 1%Q
           (all_stocks self).

(** [len(self.all_stocks)] *)
Definition len (self : t) : Z := Z.of_nat (size (all_stocks self)).

Section AllShareIndex.

(** [math.pow] of the Python standard library.  It converts its two
    arguments to binary64, rounds its result, and can raise [OverflowError]
    or [ValueError]: nothing is assumed of it, the method is modelled for
    every function in its place. *)
Variable math_pow : Q -> Q -> result Q.


End AllShareIndex.

End StockExchangeEngine.

(** ** The recalculation without the early exit

    The scan the specification asks the early exit to agree with: every
    trade of the history is looked at, and a trade outside the window is
    skipped instead of ending the loop. *)

Module FullScan.

Fixpoint scan (current_time : datetime) (ts : list Trade.t)
    (total_qty total_traded_value : Z) : Z * Z :=
  match ts with
  | [] => (total_qty, total_traded_value)
  | t :: rest =>
      let time_diff := (current_time - Trade.timestamp t)%Z in
      if (time_diff <=? Stock.fifteen_minutes)%Z then
        scan current_time rest
          (total_qty + Trade.quantity t)%Z
          (total_traded_value + Trade.price t * Trade.quantity t)%Z
      else scan current_time rest total_qty total_traded_value
  end.

Definition recalculate_price_at (current_time : datetime) (self : Stock.t)
    : result Q * Stock.t :=
  let '(total_qty, total_traded_value) :=
    scan current_time (Stock.trades self) 0 0 in
  if (0 <? total_qty)%Z then
    match truediv (inject_Z total_traded_value) (inject_Z total_qty) with
    | Ok p => (Ok p, Stock.set_price p self)
    | Raise e => (Raise e, self)
    end
  else (Ok (Stock.price self), self).

Definition recalculate_price (self : Stock.t) (w : World)
    : result Q * Stock.t * World :=
  let '(current_time, w') := datetime_now w in
  let '(r, self') := recalculate_price_at current_time self in
  (r, self', w').

End FullScan.

(** ** Sample data

    Stocks of the data set of [main], and a history of three trades made
    twenty, ten and five minutes before a reference instant. *)

Definition ex_ref : datetime := timedelta_minutes 600.

Definition at_offset (m : Z) : datetime := (ex_ref + timedelta_minutes m)%Z.

Definition ex_t1 : Trade.t := Trade.init "TEA" (at_offset (-20)) 10 true 100.
Definition ex_t2 : Trade.t := Trade.init "TEA" (at_offset (-10)) 5 true 110.
Definition ex_t3 : Trade.t := Trade.init "TEA" (at_offset (-5)) 5 false 120.

(** A trade with a negative quantity, two minutes before the reference. *)
Definition ex_neg : Trade.t := Trade.init "TEA" (at_offset (-2)) (-5) true 100.

Definition ex_tea : Stock.t := Stock.init "TEA" 120 false 100 0 0.
Definition ex_pop : Stock.t := Stock.init "POP" 150 false 100 8 0.
Definition ex_gin : Stock.t := Stock.init "GIN" 190 true 100 8 (2 # 100).

(** A caller that records the trades of [ts] one after the other. *)
Fixpoint record_all (ts : list Trade.t) (s : Stock.t) (w : World)
    : Stock.t * World :=
  match ts with
  | [] => (s, w)
  | t :: rest =>
      let '(_, s', w') := Stock.record_trade t s w in
      record_all rest s' w'
  end.

(** Each of the three trades is recorded at the instant it is made; the
    clock then shows the reference instant. *)
Definition ex_world : World :=
  world_of [at_offset (-20); at_offset (-10); at_offset (-5)] ex_ref.

Definition ex_recorded : Stock.t * World :=
  record_all [ex_t1; ex_t2; ex_t3] ex_tea ex_world.

(** The same history put on a stock whose price is still its initial one. *)
Definition ex_ledger : Stock.t :=
  Stock.mk "TEA" [ex_t1; ex_t2; ex_t3] 120 false 100 0 0.

(** A history stored newest first: along the list the timestamps never
    increase. *)
Definition newest_first (ts : list Trade.t) : Prop :=
  StronglySorted
    (fun a b => (Trade.timestamp b <= Trade.timestamp a)%Z) ts.

(** A stock with one trade, made ten minutes before the reference. *)
Definition ex_one_trade : Stock.t := Stock.append_trade ex_t2 ex_tea.

(** A stock that differs from [ex_one_trade] in everything but its history
    and its price. *)
Definition ex_other_stock : Stock.t :=
  Stock.append_trade ex_t2 (Stock.init "JOE" 120 true 250 13 (2 # 100)).

(** A common stock priced 200 with a last dividend of 8. *)
Definition ex_priced_200 : Stock.t := Stock.mk "POP" [] 200 false 100 8 0.

(** A stock whose price is zero. *)
Definition ex_priced_0 : Stock.t := Stock.init "NIL" 0 true 100 8 0.

(** The registry after the first two stocks of the data set are added. *)
Definition ex_engine : StockExchangeEngine.t :=
  StockExchangeEngine.mk (<["POP" := ex_pop]> (<["TEA" := ex_tea]> ∅)).




(** ** Callers of the stocks and of the registry *)

(** The attributes of a stock that [Stock.__init__] sets and that no method
    assigns afterwards. *)
Definition static_attributes (s : Stock.t) : string * bool * Z * Z * Q :=
  (Stock.symbol s, Stock.preferred s, Stock.par_value s,
   Stock.last_dividend s, Stock.fixed_dividend s).

(** Two trades with the same timestamp, quantity and price; their symbols
    and their directions may differ. *)
Definition same_figures (a b : Trade.t) : Prop :=
  Trade.timestamp a = Trade.timestamp b /\
  Trade.quantity a = Trade.quantity b /\
  Trade.price a = Trade.price b.

(** A call of one of the two methods of the registry that change it. *)
Inductive call : Type :=
| AddStock (symbol : string) (initial_price : Z) (preferredVsCommon : bool)
    (par_value last_dividend : Z) (fixed_dividend : Q)
| RecordTrade (symbol : string) (trade : Trade.t).

Definition do_call (c : call) (e : StockExchangeEngine.t) (w : World)
    : StockExchangeEngine.t * World :=
  match c with
  | AddStock symbol initial_price preferredVsCommon par_value last_dividend
      fixed_dividend =>
      (snd (StockExchangeEngine.add_stock symbol initial_price
              preferredVsCommon par_value last_dividend fixed_dividend e),
       w)
  | RecordTrade symbol trade =>
      let '(_, e', w') := StockExchangeEngine.record_trade symbol trade e w in
      (e', w')
  end.

(** A caller that makes the calls of [cs] one after the other. *)
Fixpoint do_calls (cs : list call) (e : StockExchangeEngine.t) (w : World)
    : StockExchangeEngine.t * World :=
  match cs with
  | [] => (e, w)
  | c :: rest => let '(e', w') := do_call c e w in do_calls rest e' w'
  end.

(** The symbols that the calls of [cs] pass to [add_stock]. *)
Fixpoint added_symbols (cs : list call) : gset string :=
  match cs with
  | [] => ∅
  | AddStock symbol _ _ _ _ _ :: rest => {[symbol]} ∪ added_symbols rest
  | RecordTrade _ _ :: rest => added_symbols rest
  end.

(** The symbol a call names. *)
Definition call_symbol (c : call) : string :=
  match c with
  | AddStock symbol _ _ _ _ _ => symbol
  | RecordTrade symbol _ => symbol
  end.

(** The three sample trades stored newest first. *)
Definition ex_newest_first : Stock.t :=
  Stock.mk "TEA" [ex_t3; ex_t2; ex_t1] 120 false 100 0 0.

(** A preferred stock priced 190 with a trade that differs from [ex_t2] in
    its symbol and its direction only. *)
Definition ex_t2_sale : Trade.t :=
  Trade.init "GIN" (at_offset (-10)) 5 false 110.

(** ** The generators of the demonstration

    The functions of the module [random] that the generators call are
    modelled by what their documentation promises, on a generator state
    that hands out raw numbers: [randint(a, b)] is some integer N with
    [a <= N <= b] and raises [ValueError] on an empty range, [random()] is a
    multiple of 2^-53 in [0, 1), and [uniform(a, b)] is
    [a + (b - a) * random()]. *)

Record Rng : Type := mkRng {
  raw : nat -> Z;
  used : nat
}.

Definition next_raw (g : Rng) : Z * Rng :=
  (raw g (used g), mkRng (raw g) (S (used g))).

Definition randint (a b : Z) (g : Rng) : result Z * Rng :=
  if (a <=? b)%Z then
    let '(r, g') := next_raw g in (Ok (a + r mod (b - a + 1))%Z, g')
  else (Raise ValueError, g).

Definition random (g : Rng) : Q * Rng :=
  let '(r, g') := next_raw g in
  (Qmake (r mod 2 ^ 53) (2 ^ 53), g').

Definition uniform (a b : Q) (g : Rng) : Q * Rng :=
  let '(x, g') := random g in ((a + (b - a) * x)%Q, g').

(** [int(x)] of a number: the integer part, rounding towards zero. *)
Definition int_of (x : Q) : Z := Z.quot (Qnum x) (Zpos (Qden x)).

(** [sorted(l)] on a list of integers. *)
Definition sorted (l : list Z) : list Z := merge_sort Z.le l.

(** The loop of [generate_random_time_deltas] (lines 273-274), run [n]
    times. *)
Fixpoint draw_time_deltas (n : nat) (min_td max_td : Z) (g : Rng)
    (time_deltas : list Z) : result (list Z) * Rng :=
  match n with
  | O => (Ok time_deltas, g)
  | S n' =>
      match randint min_td max_td g with
      | (Ok d, g') =>
          draw_time_deltas n' min_td max_td g' (time_deltas ++ [d])
      | (Raise e, g') => (Raise e, g')
      end
  end.

(** [generate_random_time_deltas]; [range(n)] is empty for a negative
    [n]. *)
Definition generate_random_time_deltas
    (min_trades max_trades min_td max_td : Z) (g : Rng)
    : result (list Z) * Rng :=
  match randint min_trades max_trades g with
  | (Ok no_of_trades, g1) =>
      match draw_time_deltas (Z.to_nat no_of_trades) min_td max_td g1 [] with
      | (Ok time_deltas, g2) => (Ok (sorted time_deltas), g2)
      | (Raise e, g2) => (Raise e, g2)
      end
  | (Raise e, g1) => (Raise e, g1)
  end.

(** [generate_random_trade] *)
Definition generate_random_trade
    (symbol : string) (time_delta : Z) (price_variation : Q)
    (current_price min_qty max_qty : Z) (w : World) (g : Rng)
    : result Trade.t * World * Rng :=
  let '(now, w1) := datetime_now w in
  let a_time_delta := timedelta_minutes time_delta in
  let timestamp := (now - a_time_delta)%Z in
  let '(u, g1) := uniform (- price_variation) price_variation g in
  let trade_price :=
    (current_price + int_of (inject_Z current_price * u))%Z in
  match randint min_qty max_qty g1 with
  | (Ok qty, g2) =>
      let '(x, g3) := random g2 in
      let buyVsSell := if Qle_bool (1 # 2) x then false else true in
      (Ok (Trade.init symbol timestamp qty buyVsSell trade_price), w1, g3)
  | (Raise e, g2) => (Raise e, w1, g2)
  end.

(** A generator state whose raw numbers are 7, 3, 40, 12, 5, 21 and then
    9 for ever. *)
Definition ex_rng : Rng := mkRng (fun n => nth n [7; 3; 40; 12; 5; 21]%Z 9%Z) 0.

(** * Properties *)

(** ** The scan *)

Lemma scan_head_old (now : datetime) (t : Trade.t) (rest : list Trade.t)
    (q v : Z) :
  (Stock.fifteen_minutes < now - Trade.timestamp t)%Z ->
  Stock.scan now (t :: rest) q v = (q, v).
Proof.
  intros Hold. simpl.
  destruct (Z.leb_spec (now - Trade.timestamp t) Stock.fifteen_minutes);
    [lia | reflexivity].
Qed.

Lemma scan_first_old (now : datetime) (ts : list Trade.t) (q v : Z) :
  Forall (fun t => (Stock.fifteen_minutes < now - Trade.timestamp t)%Z) ts ->
  Stock.scan now ts q v = (q, v).
Proof.
  intros Hall. destruct Hall as [|t rest Ht _]; [reflexivity|].
  now apply scan_head_old.
Qed.

Lemma full_scan_all_old (now : datetime) (ts : list Trade.t) (q v : Z) :
  Forall (fun t => (Stock.fifteen_minutes < now - Trade.timestamp t)%Z) ts ->
  FullScan.scan now ts q v = (q, v).
Proof.
  induction 1 as [|t rest Ht _ IH]; simpl; [reflexivity|].
  destruct (Z.leb_spec (now - Trade.timestamp t) Stock.fifteen_minutes);
    [lia | exact IH].
Qed.

(** On a history stored newest first the early exit loses nothing: the
    loop of [recalculate_price] accumulates what the full scan does. *)
Lemma scan_newest_first (now : datetime) (ts : list Trade.t) :
  newest_first ts ->
  forall q v : Z, Stock.scan now ts q v = FullScan.scan now ts q v.
Proof.
  induction 1 as [|t rest Hsorted IH Hle]; intros q v; simpl;
    [reflexivity|].
  destruct (Z.leb_spec (now - Trade.timestamp t) Stock.fifteen_minutes)
    as [Hin|Hout].
  - apply IH.
  - symmetry. apply full_scan_all_old.
    eapply Forall_impl; [exact Hle|].
    intros t' Ht'. simpl in Ht'. lia.
Qed.

(** X8: on a history whose timestamps never increase along the list (the
    newest trade first) the early exit loses nothing: [recalculate_price]
    returns the price, and leaves the stock, that a scan of the whole
    history gives. *)
Lemma recalculate_price_newest_first (self : Stock.t) (w : World) :
  newest_first (Stock.trades self) ->
  Stock.recalculate_price self w = FullScan.recalculate_price self w.
Proof.
  intros Hsorted.
  unfold Stock.recalculate_price, FullScan.recalculate_price,
    Stock.recalculate_price_at, FullScan.recalculate_price_at.
  destruct (datetime_now w) as [now w'].
  now rewrite (scan_newest_first now _ Hsorted).
Qed.

(** ** The guarded division *)

Lemma truediv_pos (a : Q) (q : Z) :
  (0 < q)%Z -> truediv a (inject_Z q) = Ok (a / inject_Z q)%Q.
Proof.
  intros Hq. unfold truediv.
  destruct (Qeq_bool (inject_Z q) 0) eqn:E; [|reflexivity].
  apply Qeq_bool_eq in E. unfold Qeq in E. simpl in E. lia.
Qed.

Lemma recalculate_price_at_guarded (now : datetime) (self : Stock.t) :
  (fst (Stock.scan now (Stock.trades self) 0 0) <= 0)%Z ->
  Stock.recalculate_price_at now self = (Ok (Stock.price self), self).
Proof.
  intros Hq. unfold Stock.recalculate_price_at.
  destruct (Stock.scan now (Stock.trades self) 0 0) as [tq tv].
  simpl in Hq. destruct (Z.ltb_spec 0 tq); [lia | reflexivity].
Qed.

Lemma recalculate_price_at_divides (now : datetime) (self : Stock.t) :
  (0 < fst (Stock.scan now (Stock.trades self) 0 0))%Z ->
  let tq := fst (Stock.scan now (Stock.trades self) 0 0) in
  let tv := snd (Stock.scan now (Stock.trades self) 0 0) in
  Stock.recalculate_price_at now self =
    (Ok (inject_Z tv / inject_Z tq)%Q,
     Stock.set_price (inject_Z tv / inject_Z tq)%Q self).
Proof.
  intros Hq. unfold Stock.recalculate_price_at.
  destruct (Stock.scan now (Stock.trades self) 0 0) as [tq tv].
  simpl in *. destruct (Z.ltb_spec 0 tq); [|lia].
  now rewrite truediv_pos.
Qed.

Lemma recalculate_price_unfold (self : Stock.t) (w : World) :
  Stock.recalculate_price self w =
    (fst (Stock.recalculate_price_at (next_instant w) self),
     snd (Stock.recalculate_price_at (next_instant w) self),
     after_read w).
Proof.
  unfold Stock.recalculate_price, next_instant, after_read. simpl.
  now destruct (Stock.recalculate_price_at (clock w (reads w)) self).
Qed.

Lemma recalculate_price_skips (self : Stock.t) (w : World) :
  (fst (Stock.scan (next_instant w) (Stock.trades self) 0 0) <= 0)%Z ->
  Stock.recalculate_price self w =
    (Ok (Stock.price self), self, after_read w).
Proof.
  intros Hq.
  now rewrite recalculate_price_unfold, recalculate_price_at_guarded.
Qed.

Lemma recalculate_price_stores (self : Stock.t) (w : World) :
  (0 < fst (Stock.scan (next_instant w) (Stock.trades self) 0 0))%Z ->
  let tq := fst (Stock.scan (next_instant w) (Stock.trades self) 0 0) in
  let tv := snd (Stock.scan (next_instant w) (Stock.trades self) 0 0) in
  Stock.recalculate_price self w =
    (Ok (inject_Z tv / inject_Z tq)%Q,
     Stock.set_price (inject_Z tv / inject_Z tq)%Q self,
     after_read w).
Proof.
  intros Hq tq tv.
  now rewrite recalculate_price_unfold, recalculate_price_at_divides.
Qed.

(** ** recalculate_price *)

(** C4: when every trade of the history is strictly older than fifteen
    minutes at the instant of the call (an empty history included), the
    accumulated quantity is zero, the division is skipped, and
    [recalculate_price] returns the current price and leaves the stock as
    it was. *)
Theorem recalculate_price_all_old (self : Stock.t) (w : World) :
  Forall (fun t =>
            (Stock.fifteen_minutes < next_instant w - Trade.timestamp t)%Z)
         (Stock.trades self) ->
  Stock.scan (next_instant w) (Stock.trades self) 0 0 = (0, 0)%Z /\
  Stock.recalculate_price self w =
    (Ok (Stock.price self), self, after_read w).
Proof.
  intros Hold.
  pose proof (scan_first_old _ _ 0%Z 0%Z Hold) as Hscan.
  split; [exact Hscan|].
  apply recalculate_price_skips. rewrite Hscan. simpl. lia.
Qed.

Lemma recalculate_price_all_old_witness :
  (Forall (fun t =>
             (Stock.fifteen_minutes
              < next_instant (world_of [] (at_offset 30)) - Trade.timestamp t)%Z)
          (Stock.trades ex_ledger)) /\
  (Stock.scan (next_instant (world_of [] (at_offset 30)))
              (Stock.trades ex_ledger) 0 0 = (0, 0)%Z /\
   Stock.recalculate_price ex_ledger (world_of [] (at_offset 30)) =
     (Ok (Stock.price ex_ledger), ex_ledger,
      after_read (world_of [] (at_offset 30)))) /\
  Stock.recalculate_price ex_tea ex_world =
    (Ok (Stock.price ex_tea), ex_tea, after_read ex_world).
Proof.
  assert (Hold : Forall (fun t =>
             (Stock.fifteen_minutes
              < next_instant (world_of [] (at_offset 30)) - Trade.timestamp t)%Z)
          (Stock.trades ex_ledger))
    by (repeat constructor; vm_compute; reflexivity).
  split; [exact Hold|].
  split.
  - apply (recalculate_price_all_old ex_ledger _ Hold).
  - apply (recalculate_price_all_old ex_tea ex_world). constructor.
Defined.

(** C10: the division [total_traded_value / total_qty] is done only when
    [total_qty > 0].  So [recalculate_price] never raises: it returns a
    price at every history and instant; when the quantity accumulated by
    the loop is zero or negative the stock is left as it was and its price
    is returned; when it is positive the quotient is stored and
    returned. *)
Theorem recalculate_price_guard (self : Stock.t) (w : World) :
  let total_qty :=
    fst (Stock.scan (next_instant w) (Stock.trades self) 0 0) in
  let total_traded_value :=
    snd (Stock.scan (next_instant w) (Stock.trades self) 0 0) in
  (exists p self',
     Stock.recalculate_price self w = (Ok p, self', after_read w)) /\
  ((total_qty <= 0)%Z ->
     Stock.recalculate_price self w =
       (Ok (Stock.price self), self, after_read w)) /\
  ((0 < total_qty)%Z ->
     Stock.recalculate_price self w =
       (Ok (inject_Z total_traded_value / inject_Z total_qty)%Q,
        Stock.set_price
          (inject_Z total_traded_value / inject_Z total_qty)%Q self,
        after_read w)).
Proof.
  intros total_qty total_traded_value.
  split; [|split].
  - destruct (Z_le_gt_dec total_qty 0) as [Hq|Hq].
    + eexists _, _. now apply recalculate_price_skips.
    + eexists _, _. apply recalculate_price_stores. fold total_qty. lia.
  - apply recalculate_price_skips.
  - apply recalculate_price_stores.
Qed.

Lemma recalculate_price_guard_witness :
  (fst (Stock.scan (next_instant (world_of [] ex_ref))
                   (Stock.trades (Stock.append_trade ex_neg ex_tea)) 0 0)
   = -5)%Z /\
  Stock.recalculate_price (Stock.append_trade ex_neg ex_tea)
                          (world_of [] ex_ref) =
    (Ok (Stock.price ex_tea), Stock.append_trade ex_neg ex_tea,
     after_read (world_of [] ex_ref)).
Proof.
  split; [vm_compute; reflexivity|].
  destruct (recalculate_price_guard (Stock.append_trade ex_neg ex_tea)
                                    (world_of [] ex_ref)) as (_ & Hle & _).
  apply Hle. vm_compute. discriminate.
Defined.

(** C1: for a history stored by [record_trade] the early exit changes the
    result.  The three trades are recorded in the order they are made; at
    the reference instant the loop leaves at the first one, which is twenty
    minutes old, so the price stays 107.5 where the scan of the whole
    history gives 115. *)
Theorem early_exit_changes_result :
  Stock.trades (fst ex_recorded) = [ex_t1; ex_t2; ex_t3] /\
  next_instant (snd ex_recorded) = ex_ref /\
  exists p_code p_full : Q,
    fst (fst (Stock.recalculate_price (fst ex_recorded) (snd ex_recorded)))
      = Ok p_code /\
    fst (fst (FullScan.recalculate_price (fst ex_recorded) (snd ex_recorded)))
      = Ok p_full /\
    (p_code == 215 # 2)%Q /\ (p_full == 115)%Q /\ ~ (p_code == p_full)%Q.
Proof.
  split; [reflexivity|]. split; [reflexivity|].
  exists (2150 # 20)%Q, (1150 # 10)%Q.
  repeat split; try (vm_compute; reflexivity).
  vm_compute. discriminate.
Qed.

(** C2: on the history of the three trades made twenty, ten and five
    minutes before the reference instant, in recording order,
    [recalculate_price] at the reference instant does not return 115: the
    loop leaves at the first trade, no quantity is accumulated, and the
    price stays what it was (107.5 after the three calls of [record_trade],
    120 on a stock that still has its initial price). *)
Theorem recalculate_price_window_example :
  Stock.trades (fst ex_recorded) = Stock.trades ex_ledger /\
  Stock.scan ex_ref (Stock.trades ex_ledger) 0 0 = (0, 0)%Z /\
  (exists p : Q,
     Stock.recalculate_price (fst ex_recorded) (snd ex_recorded)
       = (Ok p, fst ex_recorded, after_read (snd ex_recorded)) /\
     (p == 215 # 2)%Q /\ ~ (p == 115)%Q) /\
  (exists p : Q,
     Stock.recalculate_price ex_ledger (world_of [] ex_ref)
       = (Ok p, ex_ledger, after_read (world_of [] ex_ref)) /\
     (p == 120)%Q /\ ~ (p == 115)%Q).
Proof.
  split; [reflexivity|]. split; [reflexivity|]. split.
  - exists (Stock.price (fst ex_recorded)). split.
    + apply recalculate_price_skips. vm_compute. discriminate.
    + split; vm_compute; [reflexivity | discriminate].
  - exists (Stock.price ex_ledger). split.
    + apply recalculate_price_skips. vm_compute. discriminate.
    + split; vm_compute; [reflexivity | discriminate].
Qed.

(** C3 as stated does not hold: [recalculate_price] has no parameter for the
    instant, and on one and the same stock it returns 110 when the system
    clock shows the reference instant and 120 when it shows an instant
    twenty minutes later. *)
Lemma recalculate_price_reads_clock :
  exists p1 p2 : Q,
    fst (fst (Stock.recalculate_price ex_one_trade (world_of [] ex_ref)))
      = Ok p1 /\
    fst (fst (Stock.recalculate_price ex_one_trade
                (world_of [] (at_offset 20))))
      = Ok p2 /\
    (p1 == 110)%Q /\ (p2 == 120)%Q /\ ~ (p1 == p2)%Q.
Proof.
  exists (550 # 5)%Q, 120%Q.
  repeat split; try (vm_compute; reflexivity).
  vm_compute. discriminate.
Qed.

Lemma recalculate_price_at_frame (now : datetime) (s1 s2 : Stock.t) :
  Stock.trades s1 = Stock.trades s2 ->
  Stock.price s1 = Stock.price s2 ->
  fst (Stock.recalculate_price_at now s1)
    = fst (Stock.recalculate_price_at now s2) /\
  Stock.price (snd (Stock.recalculate_price_at now s1))
    = Stock.price (snd (Stock.recalculate_price_at now s2)) /\
  Stock.trades (snd (Stock.recalculate_price_at now s1))
    = Stock.trades (snd (Stock.recalculate_price_at now s2)).
Proof.
  intros Htrades Hprice. unfold Stock.recalculate_price_at.
  rewrite Htrades.
  destruct (Stock.scan now (Stock.trades s2) 0 0) as [tq tv].
  destruct (0 <? tq)%Z; [|simpl; rewrite Hprice; auto].
  destruct (truediv (inject_Z tv) (inject_Z tq)); simpl; auto.
Qed.

(** C3, amended: [recalculate_price] reads the system clock once, and its
    result is determined by the instant read, the trade history and the
    current price: two calls for which the clock shows the same instant, on
    stocks with the same history and the same price, return the same price
    and leave the same price and the same history. *)
Theorem recalculate_price_deterministic
    (s1 s2 : Stock.t) (w1 w2 : World) :
  Stock.trades s1 = Stock.trades s2 ->
  Stock.price s1 = Stock.price s2 ->
  next_instant w1 = next_instant w2 ->
  fst (fst (Stock.recalculate_price s1 w1))
    = fst (fst (Stock.recalculate_price s2 w2)) /\
  Stock.price (snd (fst (Stock.recalculate_price s1 w1)))
    = Stock.price (snd (fst (Stock.recalculate_price s2 w2))) /\
  Stock.trades (snd (fst (Stock.recalculate_price s1 w1)))
    = Stock.trades (snd (fst (Stock.recalculate_price s2 w2))) /\
  reads (snd (Stock.recalculate_price s1 w1)) = S (reads w1) /\
  reads (snd (Stock.recalculate_price s2 w2)) = S (reads w2).
Proof.
  intros Htrades Hprice Hnow.
  rewrite !recalculate_price_unfold. simpl. rewrite Hnow.
  destruct (recalculate_price_at_frame (next_instant w2) s1 s2
              Htrades Hprice) as (Hr & Hp & Ht).
  auto.
Qed.

Lemma recalculate_price_deterministic_witness :
  fst (fst (Stock.recalculate_price ex_one_trade (world_of [] ex_ref)))
    = fst (fst (Stock.recalculate_price ex_other_stock
                  (world_of [ex_ref] (at_offset 40)))) /\
  ex_one_trade <> ex_other_stock.
Proof.
  split; [|discriminate].
  apply (recalculate_price_deterministic ex_one_trade ex_other_stock
           (world_of [] ex_ref) (world_of [ex_ref] (at_offset 40)));
    reflexivity.
Defined.

(** ** The ratios *)

Lemma truediv_zero (a b : Q) :
  (b == 0)%Q -> truediv a b = Raise ZeroDivisionError.
Proof.
  intros Hb. unfold truediv. apply Qeq_bool_iff in Hb. now rewrite Hb.
Qed.

Lemma truediv_nonzero (a b : Q) :
  ~ (b == 0)%Q -> truediv a b = Ok (a / b)%Q.
Proof.
  intros Hb. unfold truediv.
  destruct (Qeq_bool b 0) eqn:E; [|reflexivity].
  apply Qeq_bool_iff in E. contradiction.
Qed.

Lemma truediv_raises_iff (a b : Q) :
  (b == 0)%Q <-> truediv a b = Raise ZeroDivisionError.
Proof.
  split; [apply truediv_zero|].
  intros Hr. destruct (Qeq_dec b 0) as [Hb|Hb]; [exact Hb|].
  rewrite truediv_nonzero in Hr by exact Hb. discriminate.
Qed.

(** C5: [get_dividend_yield] raises [ZeroDivisionError] exactly when the
    current price is zero, and otherwise returns (par value * last
    dividend) / price for a preferred stock and last dividend / price for a
    common one; with par value 100, last dividend 8 and price 190 the
    preferred yield is 800/190 = 4.2105..., and with last dividend 8 and
    price 150 the common yield is 8/150 = 0.0533... *)
Theorem get_dividend_yield_spec (self : Stock.t) :
  ((Stock.price self == 0)%Q <->
     fst (Stock.get_dividend_yield self) = Raise ZeroDivisionError) /\
  (~ (Stock.price self == 0)%Q ->
     fst (Stock.get_dividend_yield self) =
       Ok (if Stock.preferred self
           then inject_Z (Stock.par_value self * Stock.last_dividend self)
                / Stock.price self
           else inject_Z (Stock.last_dividend self) / Stock.price self)%Q) /\
  (exists y : Q,
     fst (Stock.get_dividend_yield ex_gin) = Ok y /\
     (y == 800 # 190)%Q /\ (42105 # 10000 < y)%Q /\ (y < 42106 # 10000)%Q) /\
  (exists y : Q,
     fst (Stock.get_dividend_yield ex_pop) = Ok y /\
     (y == 8 # 150)%Q /\ (533 # 10000 < y)%Q /\ (y < 534 # 10000)%Q).
Proof.
  split; [|split; [|split]].
  - unfold Stock.get_dividend_yield.
    destruct (Stock.preferred self); simpl; apply truediv_raises_iff.
  - intros Hp. unfold Stock.get_dividend_yield.
    destruct (Stock.preferred self); simpl; now apply truediv_nonzero.
  - eexists. split; [vm_compute; reflexivity|].
    repeat split; vm_compute; reflexivity.
  - eexists. split; [vm_compute; reflexivity|].
    repeat split; vm_compute; reflexivity.
Qed.

Lemma get_dividend_yield_spec_witness :
  fst (Stock.get_dividend_yield ex_priced_0) = Raise ZeroDivisionError /\
  fst (Stock.get_dividend_yield ex_gin) = Ok (inject_Z (100 * 8) / 190)%Q.
Proof.
  split.
  - apply (get_dividend_yield_spec ex_priced_0). reflexivity.
  - apply (get_dividend_yield_spec ex_gin). vm_compute. discriminate.
Defined.

(** C6: [get_price_earnings_ratio] raises [ZeroDivisionError] exactly when
    the last dividend is zero or negative, returns price / last dividend
    when the last dividend is positive (25 for a price of 200 and a last
    dividend of 8), and leaves the stock as it was in both cases. *)
Theorem get_price_earnings_ratio_spec (self : Stock.t) :
  snd (Stock.get_price_earnings_ratio self) = self /\
  ((Stock.last_dividend self <= 0)%Z <->
     fst (Stock.get_price_earnings_ratio self) = Raise ZeroDivisionError) /\
  ((0 < Stock.last_dividend self)%Z ->
     fst (Stock.get_price_earnings_ratio self) =
       Ok (Stock.price self / inject_Z (Stock.last_dividend self))%Q) /\
  (exists r : Q,
     fst (Stock.get_price_earnings_ratio ex_priced_200) = Ok r /\
     (r == 25)%Q).
Proof.
  unfold Stock.get_price_earnings_ratio.
  split; [|split; [|split]].
  - now destruct (0 <? Stock.last_dividend self)%Z.
  - destruct (Z.ltb_spec 0 (Stock.last_dividend self)) as [Hd|Hd]; simpl.
    + rewrite truediv_pos by exact Hd. split; [lia | discriminate].
    + split; [reflexivity | intros _; exact Hd].
  - intros Hd. destruct (Z.ltb_spec 0 (Stock.last_dividend self)); [|lia].
    simpl. now apply truediv_pos.
  - eexists. split; vm_compute; reflexivity.
Qed.

Lemma get_price_earnings_ratio_spec_witness :
  fst (Stock.get_price_earnings_ratio ex_tea) = Raise ZeroDivisionError /\
  fst (Stock.get_price_earnings_ratio ex_priced_200) = Ok (200 / 8)%Q.
Proof.
  split.
  - apply (get_price_earnings_ratio_spec ex_tea). vm_compute. discriminate.
  - apply (get_price_earnings_ratio_spec ex_priced_200). reflexivity.
Defined.

(** ** The registry *)

Lemma recalculate_price_at_ok (now : datetime) (self : Stock.t) :
  exists p : Q, fst (Stock.recalculate_price_at now self) = Ok p.
Proof.
  destruct (Z_le_gt_dec
              (fst (Stock.scan now (Stock.trades self) 0 0)) 0) as [Hq|Hq].
  - rewrite recalculate_price_at_guarded by exact Hq. now eexists.
  - rewrite recalculate_price_at_divides by lia. now eexists.
Qed.

Lemma recalculate_price_at_trades (now : datetime) (self : Stock.t) :
  Stock.trades (snd (Stock.recalculate_price_at now self))
    = Stock.trades self.
Proof.
  unfold Stock.recalculate_price_at.
  destruct (Stock.scan now (Stock.trades self) 0 0) as [tq tv].
  destruct (0 <? tq)%Z; [|reflexivity].
  now destruct (truediv (inject_Z tv) (inject_Z tq)).
Qed.

(** The price returned is the price the stock has after the call. *)
Lemma recalculate_price_at_returns_price (now : datetime) (self : Stock.t) :
  fst (Stock.recalculate_price_at now self)
    = Ok (Stock.price (snd (Stock.recalculate_price_at now self))).
Proof.
  destruct (Z_le_gt_dec
              (fst (Stock.scan now (Stock.trades self) 0 0)) 0) as [Hq|Hq].
  - now rewrite recalculate_price_at_guarded.
  - now rewrite recalculate_price_at_divides by lia.
Qed.

(** [record_trade] of a stock: the trade is put at the end of the history,
    the price is recalculated on the history so extended, and nothing is
    raised. *)
Lemma stock_record_trade_unfold (trade : Trade.t) (self : Stock.t)
    (w : World) :
  Stock.record_trade trade self w =
    (Ok tt,
     snd (Stock.recalculate_price_at (next_instant w)
            (Stock.append_trade trade self)),
     after_read w).
Proof.
  unfold Stock.record_trade. rewrite recalculate_price_unfold.
  destruct (recalculate_price_at_ok (next_instant w)
              (Stock.append_trade trade self)) as [p Hp].
  now rewrite Hp.
Qed.

Lemma add_stock_present
    (symbol : string) (initial_price : Z) (preferredVsCommon : bool)
    (par_value last_dividend : Z) (fixed_dividend : Q)
    (self : StockExchangeEngine.t) :
  is_Some (StockExchangeEngine.all_stocks self !! symbol) ->
  StockExchangeEngine.add_stock symbol initial_price preferredVsCommon
    par_value last_dividend fixed_dividend self = (Ok tt, self).
Proof.
  intros [old Hold]. unfold StockExchangeEngine.add_stock. now rewrite Hold.
Qed.

Lemma add_stock_absent
    (symbol : string) (initial_price : Z) (preferredVsCommon : bool)
    (par_value last_dividend : Z) (fixed_dividend : Q)
    (self : StockExchangeEngine.t) :
  StockExchangeEngine.all_stocks self !! symbol = None ->
  StockExchangeEngine.add_stock symbol initial_price preferredVsCommon
    par_value last_dividend fixed_dividend self =
    (Ok tt,
     StockExchangeEngine.mk
       (<[symbol := Stock.init symbol initial_price preferredVsCommon
                      par_value last_dividend fixed_dividend]>
          (StockExchangeEngine.all_stocks self))).
Proof.
  intros Hnone. unfold StockExchangeEngine.add_stock. now rewrite Hnone.
Qed.

(** C8: [add_stock] never raises.  With a symbol that is not registered it
    puts a new stock under the symbol, whose price is the initial price and
    whose history is empty, and leaves the other symbols alone; with a
    symbol that is registered it returns the registry as it is, whatever the
    other arguments are.  Hence a second call with the same symbol changes
    nothing. *)
Theorem add_stock_idempotent
    (symbol : string) (initial_price : Z) (preferredVsCommon : bool)
    (par_value last_dividend : Z) (fixed_dividend : Q)
    (initial_price' : Z) (preferredVsCommon' : bool)
    (par_value' last_dividend' : Z) (fixed_dividend' : Q)
    (self : StockExchangeEngine.t) :
  let first :=
    StockExchangeEngine.add_stock symbol initial_price preferredVsCommon
      par_value last_dividend fixed_dividend self in
  fst first = Ok tt /\
  (StockExchangeEngine.all_stocks self !! symbol = None ->
     exists stock : Stock.t,
       StockExchangeEngine.get_stock symbol (snd first) = Some stock /\
       stock = Stock.init symbol initial_price preferredVsCommon par_value
                 last_dividend fixed_dividend /\
       Stock.price stock = inject_Z initial_price /\
       Stock.trades stock = [] /\
       forall other : string,
         other <> symbol ->
         StockExchangeEngine.get_stock other (snd first)
           = StockExchangeEngine.get_stock other self) /\
  (is_Some (StockExchangeEngine.all_stocks self !! symbol) ->
     first = (Ok tt, self)) /\
  StockExchangeEngine.add_stock symbol initial_price' preferredVsCommon'
    par_value' last_dividend' fixed_dividend' (snd first)
    = (Ok tt, snd first).
Proof.
  intros first. subst first. split; [|split; [|split]].
  - unfold StockExchangeEngine.add_stock.
    now destruct (StockExchangeEngine.all_stocks self !! symbol).
  - intros Hnone. rewrite add_stock_absent by exact Hnone.
    eexists. unfold StockExchangeEngine.get_stock. simpl.
    split; [apply lookup_insert_eq|].
    repeat split. intros other Hne. now apply lookup_insert_ne.
  - apply add_stock_present.
  - apply add_stock_present.
    destruct (StockExchangeEngine.all_stocks self !! symbol) as [old|] eqn:E.
    + rewrite add_stock_present by (now rewrite E). simpl. now rewrite E.
    + rewrite add_stock_absent by exact E. simpl.
      rewrite lookup_insert_eq. now eexists.
Qed.

Lemma add_stock_idempotent_witness :
  StockExchangeEngine.get_stock "GIN"
    (snd (StockExchangeEngine.add_stock "GIN" 190 true 100 8 (2 # 100)
            ex_engine)) = Some ex_gin /\
  StockExchangeEngine.add_stock "TEA" 500 true 1 2 3 ex_engine
    = (Ok tt, ex_engine).
Proof.
  split.
  - destruct (add_stock_idempotent "GIN" 190 true 100 8 (2 # 100)
                0 false 0 0 0 ex_engine) as (_ & Hnew & _).
    destruct (Hnew eq_refl) as (stock & Hget & Hstock & _).
    rewrite Hget, Hstock. reflexivity.
  - destruct (add_stock_idempotent "TEA" 500 true 1 2 3 0 false 0 0 0
                ex_engine) as (_ & _ & Hold & _).
    apply Hold. exists ex_tea. reflexivity.
Defined.

(** C9: the registry's [record_trade] with a symbol that is not registered
    raises nothing and returns the registry and the world as they are, so
    the number of stocks and every stock are unchanged.  With a registered
    symbol it calls [record_trade] of the stock found there: the trade is
    put at the end of that stock's history, its price is recalculated, and
    the other stocks and the number of stocks are unchanged. *)
Theorem record_trade_routing
    (symbol : string) (trade : Trade.t) (self : StockExchangeEngine.t)
    (w : World) :
  let after := StockExchangeEngine.record_trade symbol trade self w in
  (StockExchangeEngine.all_stocks self !! symbol = None ->
     after = (Ok tt, self, w) /\
     size (StockExchangeEngine.all_stocks (snd (fst after)))
       = size (StockExchangeEngine.all_stocks self) /\
     forall other : string,
       StockExchangeEngine.get_stock other (snd (fst after))
         = StockExchangeEngine.get_stock other self) /\
  (forall stock : Stock.t,
     StockExchangeEngine.all_stocks self !! symbol = Some stock ->
     exists stock' : Stock.t,
       Stock.record_trade trade stock w = (Ok tt, stock', after_read w) /\
       after =
         (Ok tt,
          StockExchangeEngine.mk
            (<[symbol := stock']> (StockExchangeEngine.all_stocks self)),
          after_read w) /\
       Stock.trades stock' = Stock.trades stock ++ [trade] /\
       Stock.recalculate_price (Stock.append_trade trade stock) w
         = (Ok (Stock.price stock'), stock', after_read w) /\
       size (StockExchangeEngine.all_stocks (snd (fst after)))
         = size (StockExchangeEngine.all_stocks self) /\
       forall other : string,
         other <> symbol ->
         StockExchangeEngine.get_stock other (snd (fst after))
           = StockExchangeEngine.get_stock other self).
Proof.
  intros after. subst after. unfold StockExchangeEngine.record_trade.
  split.
  - intros Hnone. rewrite Hnone. simpl. auto.
  - intros stock Hsome. rewrite Hsome.
    rewrite stock_record_trade_unfold.
    set (stock' := snd (Stock.recalculate_price_at (next_instant w)
                          (Stock.append_trade trade stock))).
    exists stock'. simpl.
    split; [reflexivity|]. split; [reflexivity|]. split.
    { subst stock'. now rewrite recalculate_price_at_trades. }
    split.
    { rewrite recalculate_price_unfold. fold stock'.
      subst stock'. now rewrite recalculate_price_at_returns_price. }
    split.
    { apply map_size_insert_Some. now rewrite Hsome. }
    intros other Hne. unfold StockExchangeEngine.get_stock. simpl.
    now apply lookup_insert_ne.
Qed.

Lemma record_trade_routing_witness :
  StockExchangeEngine.record_trade "XYZ" ex_t3 ex_engine ex_world
    = (Ok tt, ex_engine, ex_world) /\
  exists stock' : Stock.t,
    StockExchangeEngine.get_stock "TEA"
      (snd (fst (StockExchangeEngine.record_trade "TEA" ex_t3 ex_engine
                   (world_of [] ex_ref)))) = Some stock' /\
    Stock.trades stock' = [ex_t3].
Proof.
  split.
  - destruct (record_trade_routing "XYZ" ex_t3 ex_engine ex_world)
      as (Hnone & _).
    apply Hnone. reflexivity.
  - destruct (record_trade_routing "TEA" ex_t3 ex_engine
                (world_of [] ex_ref)) as (_ & Hsome).
    destruct (Hsome ex_tea eq_refl) as (stock' & _ & Hafter & Htrades & _).
    exists stock'. split; [|exact Htrades].
    rewrite Hafter. unfold StockExchangeEngine.get_stock. simpl.
    apply lookup_insert_eq.
Defined.

(** ** The all share index *)




Section AllShareIndexProperties.

Variable math_pow : Q -> Q -> result Q.


End AllShareIndexProperties.


(** * Further properties of the stocks *)

Lemma recalculate_price_at_static (now : datetime) (self : Stock.t) :
  static_attributes (snd (Stock.recalculate_price_at now self))
    = static_attributes self.
Proof.
  unfold Stock.recalculate_price_at.
  destruct (Stock.scan now (Stock.trades self) 0 0) as [tq tv].
  destruct (0 <? tq)%Z; [|reflexivity].
  now destruct (truediv (inject_Z tv) (inject_Z tq)).
Qed.

Lemma record_all_step (t : Trade.t) (rest : list Trade.t) (s : Stock.t)
    (w : World) :
  record_all (t :: rest) s w =
    record_all rest
      (snd (Stock.recalculate_price_at (next_instant w)
              (Stock.append_trade t s)))
      (after_read w).
Proof.
  simpl. now rewrite stock_record_trade_unfold.
Qed.

Lemma record_all_trades (ts : list Trade.t) (s : Stock.t) (w : World) :
  Stock.trades (fst (record_all ts s w)) = Stock.trades s ++ ts.
Proof.
  revert s w. induction ts as [|t rest IH]; intros s w.
  - simpl. now rewrite app_nil_r.
  - rewrite record_all_step, IH, recalculate_price_at_trades. simpl.
    now rewrite <- app_assoc.
Qed.

(** X1: recording trades one after the other on a stock puts them at the
    end of its history in the order of the calls, raises nothing, reads the
    system clock once per trade, and leaves the symbol, the kind, the par
    value and the dividends of the stock as they were. *)
Theorem record_all_appends (ts : list Trade.t) (s : Stock.t) (w : World) :
  Stock.trades (fst (record_all ts s w)) = Stock.trades s ++ ts /\
  static_attributes (fst (record_all ts s w)) = static_attributes s /\
  reads (snd (record_all ts s w)) = (reads w + length ts)%nat /\
  clock (snd (record_all ts s w)) = clock w /\
  forall t : Trade.t,
    fst (fst (Stock.record_trade t s w)) = Ok tt.
Proof.
  split; [|split; [|split; [|split]]].
  - apply record_all_trades.
  - revert s w. induction ts as [|t rest IH]; intros s w; [reflexivity|].
    now rewrite record_all_step, IH, recalculate_price_at_static.
  - revert s w. induction ts as [|t rest IH]; intros s w.
    + simpl. lia.
    + rewrite record_all_step, IH. simpl. lia.
  - revert s w. induction ts as [|t rest IH]; intros s w; [reflexivity|].
    now rewrite record_all_step, IH.
  - intros t. now rewrite stock_record_trade_unfold.
Qed.

(** [recalculate_price] changes nothing of a stock but its price: the
    history and the attributes set at construction are those of before the
    call, and the price returned is the price the stock has after it. *)
Theorem recalculate_price_frame (self : Stock.t) (w : World) :
  Stock.trades (snd (fst (Stock.recalculate_price self w)))
    = Stock.trades self /\
  static_attributes (snd (fst (Stock.recalculate_price self w)))
    = static_attributes self /\
  fst (fst (Stock.recalculate_price self w))
    = Ok (Stock.price (snd (fst (Stock.recalculate_price self w)))).
Proof.
  rewrite recalculate_price_unfold. simpl.
  auto using recalculate_price_at_trades, recalculate_price_at_static,
    recalculate_price_at_returns_price.
Qed.

Lemma recalculate_price_at_twice (now : datetime) (self : Stock.t) :
  Stock.recalculate_price_at now (snd (Stock.recalculate_price_at now self))
    = Stock.recalculate_price_at now self.
Proof.
  unfold Stock.recalculate_price_at at 2 3.
  destruct (Stock.scan now (Stock.trades self) 0 0) as [tq tv] eqn:Escan.
  destruct (0 <? tq)%Z eqn:Eguard.
  - destruct (truediv (inject_Z tv) (inject_Z tq)) as [p|e] eqn:Ediv; simpl.
    + unfold Stock.recalculate_price_at. simpl.
      now rewrite Escan, Eguard, Ediv.
    + unfold Stock.recalculate_price_at.
      now rewrite Escan, Eguard, Ediv.
  - simpl. unfold Stock.recalculate_price_at. now rewrite Escan, Eguard.
Qed.

(** X2: [recalculate_price] is idempotent at an instant: a second call for
    which the clock shows the instant of the first returns the same price
    and leaves the stock as the first call left it. *)
Theorem recalculate_price_idempotent (self : Stock.t) (w1 w2 : World) :
  next_instant w2 = next_instant w1 ->
  Stock.recalculate_price (snd (fst (Stock.recalculate_price self w1))) w2
    = (fst (fst (Stock.recalculate_price self w1)),
       snd (fst (Stock.recalculate_price self w1)),
       after_read w2).
Proof.
  intros Hnow. rewrite !recalculate_price_unfold. simpl.
  now rewrite Hnow, recalculate_price_at_twice.
Qed.

Lemma recalculate_price_idempotent_witness :
  Stock.recalculate_price
    (snd (fst (Stock.recalculate_price ex_one_trade (world_of [] ex_ref))))
    (world_of [ex_ref] (at_offset 40))
  = (fst (fst (Stock.recalculate_price ex_one_trade (world_of [] ex_ref))),
     snd (fst (Stock.recalculate_price ex_one_trade (world_of [] ex_ref))),
     after_read (world_of [ex_ref] (at_offset 40))).
Proof.
  apply (recalculate_price_idempotent ex_one_trade (world_of [] ex_ref)
           (world_of [ex_ref] (at_offset 40))).
  reflexivity.
Defined.

(** The total traded value accumulated by the loop stays between the
    smallest and the largest trade price times the accumulated quantity. *)
Lemma scan_value_bounds (now : datetime) (lo hi : Z) (ts : list Trade.t) :
  Forall (fun t => (0 < Trade.quantity t)%Z /\
                   (lo <= Trade.price t <= hi)%Z) ts ->
  forall q v : Z,
    (lo * q <= v <= hi * q)%Z ->
    (q <= fst (Stock.scan now ts q v))%Z /\
    (lo * fst (Stock.scan now ts q v) <= snd (Stock.scan now ts q v)
     <= hi * fst (Stock.scan now ts q v))%Z.
Proof.
  induction 1 as [|t rest [Hqty Hprice] _ IH]; intros q v Hqv; simpl.
  - split; [lia | exact Hqv].
  - destruct (now - Trade.timestamp t <=? Stock.fifteen_minutes)%Z; simpl.
    + destruct (IH (q + Trade.quantity t)
                   (v + Trade.price t * Trade.quantity t))%Z as [Hq Hv].
      * nia.
      * split; [lia | exact Hv].
    + split; [lia | exact Hqv].
Qed.

Lemma Qdiv_inject_bounds (lo hi v q : Z) :
  (0 < q)%Z -> (lo * q <= v <= hi * q)%Z ->
  (inject_Z lo <= inject_Z v / inject_Z q)%Q /\
  (inject_Z v / inject_Z q <= inject_Z hi)%Q.
Proof.
  intros Hq Hv.
  assert (Hpos : (0 < inject_Z q)%Q) by (unfold Qlt; simpl; lia).
  split.
  - apply Qle_shift_div_l; [exact Hpos|]. unfold Qle. simpl. lia.
  - apply Qle_shift_div_r; [exact Hpos|]. unfold Qle. simpl. lia.
Qed.

(** X3: the ticker price is a weighted average.  When every trade of the
    history has a positive quantity and a price between [lo] and [hi], and
    the current price lies between [lo] and [hi] too, the price that
    [recalculate_price] returns and stores lies between [lo] and [hi],
    whatever the instant. *)
Theorem recalculate_price_within_bounds
    (self : Stock.t) (w : World) (lo hi : Z) :
  Forall (fun t => (0 < Trade.quantity t)%Z /\
                   (lo <= Trade.price t <= hi)%Z) (Stock.trades self) ->
  (inject_Z lo <= Stock.price self)%Q ->
  (Stock.price self <= inject_Z hi)%Q ->
  exists p : Q,
    fst (fst (Stock.recalculate_price self w)) = Ok p /\
    Stock.price (snd (fst (Stock.recalculate_price self w))) = p /\
    (inject_Z lo <= p)%Q /\ (p <= inject_Z hi)%Q.
Proof.
  intros Hall Hlo Hhi.
  destruct (scan_value_bounds (next_instant w) lo hi _ Hall 0 0)%Z
    as [Hq Hv]; [lia|].
  destruct (Z_le_gt_dec
              (fst (Stock.scan (next_instant w) (Stock.trades self) 0 0)) 0)
    as [Hzero|Hsome].
  - rewrite recalculate_price_skips by exact Hzero. simpl. eauto.
  - rewrite recalculate_price_stores by lia. simpl.
    eexists. split; [reflexivity|]. split; [reflexivity|].
    apply Qdiv_inject_bounds; [lia | exact Hv].
Qed.

Lemma recalculate_price_within_bounds_witness :
  exists p : Q,
    fst (fst (Stock.recalculate_price ex_newest_first (world_of [] ex_ref)))
      = Ok p /\
    Stock.price
      (snd (fst (Stock.recalculate_price ex_newest_first
                   (world_of [] ex_ref)))) = p /\
    (inject_Z 100 <= p)%Q /\ (p <= inject_Z 120)%Q.
Proof.
  apply (recalculate_price_within_bounds ex_newest_first
           (world_of [] ex_ref) 100 120).
  - repeat constructor; vm_compute; discriminate.
  - vm_compute. discriminate.
  - vm_compute. discriminate.
Defined.

Lemma scan_stops_at_stale (now : datetime) (old : Trade.t)
    (pre rest1 rest2 : list Trade.t) (q v : Z) :
  (Stock.fifteen_minutes < now - Trade.timestamp old)%Z ->
  Stock.scan now (pre ++ old :: rest1) q v
    = Stock.scan now (pre ++ old :: rest2) q v.
Proof.
  intros Hold. revert q v.
  induction pre as [|t pre IH]; intros q v.
  - simpl app. now rewrite !scan_head_old.
  - simpl.
    destruct (now - Trade.timestamp t <=? Stock.fifteen_minutes)%Z;
      [apply IH | reflexivity].
Qed.

(** X4: the trades stored behind a trade that is older than fifteen minutes
    have no effect on the price: two stocks with the same price whose
    histories agree up to and including such a trade get the same price
    from [recalculate_price], whatever follows that trade. *)
Theorem recalculate_price_ignores_after_stale
    (s1 s2 : Stock.t) (w : World) (old : Trade.t)
    (pre rest1 rest2 : list Trade.t) :
  Stock.trades s1 = pre ++ old :: rest1 ->
  Stock.trades s2 = pre ++ old :: rest2 ->
  Stock.price s1 = Stock.price s2 ->
  (Stock.fifteen_minutes < next_instant w - Trade.timestamp old)%Z ->
  fst (fst (Stock.recalculate_price s1 w))
    = fst (fst (Stock.recalculate_price s2 w)).
Proof.
  intros H1 H2 Hprice Hold.
  rewrite !recalculate_price_unfold. simpl.
  unfold Stock.recalculate_price_at.
  rewrite H1, H2, (scan_stops_at_stale _ old pre rest1 rest2) by exact Hold.
  destruct (Stock.scan (next_instant w) (pre ++ old :: rest2) 0 0)
    as [tq tv].
  destruct (0 <? tq)%Z; [|simpl; now rewrite Hprice].
  now destruct (truediv (inject_Z tv) (inject_Z tq)).
Qed.

Lemma recalculate_price_ignores_after_stale_witness :
  fst (fst (Stock.recalculate_price ex_ledger (world_of [] ex_ref)))
    = fst (fst (Stock.recalculate_price
                  (Stock.mk "TEA" [ex_t1] 120 false 100 0 0)
                  (world_of [] ex_ref))).
Proof.
  apply (recalculate_price_ignores_after_stale ex_ledger
           (Stock.mk "TEA" [ex_t1] 120 false 100 0 0)
           (world_of [] ex_ref) ex_t1 [] [ex_t2; ex_t3] []);
    reflexivity.
Defined.

Lemma record_all_frozen_at (ts : list Trade.t) :
  forall (s : Stock.t) (w : World) (old : Trade.t) (rest : list Trade.t),
    Stock.trades s = old :: rest ->
    (forall n : nat,
       (reads w <= n)%nat ->
       (Stock.fifteen_minutes < clock w n - Trade.timestamp old)%Z) ->
    Stock.price (fst (record_all ts s w)) = Stock.price s.
Proof.
  induction ts as [|t more IH]; intros s w old rest Htrades Hstale;
    [reflexivity|].
  rewrite record_all_step.
  assert (Hskip :
    Stock.recalculate_price_at (next_instant w) (Stock.append_trade t s)
      = (Ok (Stock.price s), Stock.append_trade t s)).
  { apply (recalculate_price_at_guarded _ (Stock.append_trade t s)).
    simpl. rewrite Htrades. simpl app.
    rewrite scan_head_old; [simpl; lia|].
    apply Hstale. reflexivity. }
  rewrite Hskip. simpl.
  rewrite (IH _ _ old (rest ++ [t])).
  - reflexivity.
  - simpl. now rewrite Htrades.
  - intros n Hn. simpl in *. apply Hstale. lia.
Qed.

(** X5: once the first trade of the history is older than fifteen minutes
    at every instant the clock shows from now on, the price is frozen:
    whatever trades are recorded afterwards, the price of the stock stays
    what it is. *)
Theorem record_all_frozen
    (ts : list Trade.t) (s : Stock.t) (w : World) (old : Trade.t)
    (rest : list Trade.t) :
  Stock.trades s = old :: rest ->
  (forall n : nat,
     (reads w <= n)%nat ->
     (Stock.fifteen_minutes < clock w n - Trade.timestamp old)%Z) ->
  Stock.price (fst (record_all ts s w)) = Stock.price s /\
  Stock.trades (fst (record_all ts s w)) = old :: rest ++ ts.
Proof.
  intros Htrades Hstale. split.
  - now apply (record_all_frozen_at ts s w old rest).
  - now rewrite record_all_trades, Htrades.
Qed.

Lemma record_all_frozen_witness :
  Stock.price
    (fst (record_all [ex_t2; ex_t3]
            (Stock.mk "TEA" [ex_t1] 120 false 100 0 0)
            (world_of [] ex_ref)))
  = 120%Q.
Proof.
  apply (record_all_frozen [ex_t2; ex_t3]
           (Stock.mk "TEA" [ex_t1] 120 false 100 0 0)
           (world_of [] ex_ref) ex_t1 []).
  - reflexivity.
  - intros n _. destruct n; vm_compute; reflexivity.
Defined.

Lemma Qdiv_inject_cancel (p q : Z) :
  (0 < q)%Z -> (inject_Z (p * q) / inject_Z q == inject_Z p)%Q.
Proof.
  intros Hq. rewrite inject_Z_mult. apply Qdiv_mult_l.
  unfold Qeq. simpl. lia.
Qed.

(** X6: the first trade recorded on a stock with an empty history sets the
    price to the price of that trade when its quantity is positive and it is
    at most fifteen minutes old at the instant the clock shows (a trade
    dated exactly fifteen minutes before, or dated after that instant,
    counts); otherwise the price stays the initial one. *)
Theorem first_trade_sets_price (trade : Trade.t) (s : Stock.t) (w : World) :
  Stock.trades s = [] ->
  let s' := snd (fst (Stock.record_trade trade s w)) in
  ((next_instant w - Trade.timestamp trade <= Stock.fifteen_minutes)%Z ->
   (0 < Trade.quantity trade)%Z ->
   (Stock.price s' == inject_Z (Trade.price trade))%Q) /\
  ((Stock.fifteen_minutes < next_instant w - Trade.timestamp trade)%Z \/
   (Trade.quantity trade <= 0)%Z ->
   Stock.price s' = Stock.price s).
Proof.
  intros Hempty s'. subst s'. rewrite stock_record_trade_unfold. simpl.
  assert (Htrades : Stock.trades (Stock.append_trade trade s) = [trade])
    by (simpl; now rewrite Hempty).
  split.
  - intros Hfresh Hqty.
    rewrite recalculate_price_at_divides; rewrite Htrades; simpl;
      destruct (Z.leb_spec (next_instant w - Trade.timestamp trade)
                  Stock.fifteen_minutes); try lia; simpl; [|exact Hqty].
    now apply Qdiv_inject_cancel.
  - intros Hcase.
    rewrite recalculate_price_at_guarded; [reflexivity|].
    rewrite Htrades. simpl.
    destruct (Z.leb_spec (next_instant w - Trade.timestamp trade)
                Stock.fifteen_minutes); simpl; lia.
Qed.

Lemma first_trade_sets_price_witness :
  (Stock.price
     (snd (fst (Stock.record_trade ex_t2 ex_tea
                  (world_of [] (at_offset 5)))))
   == 110)%Q /\
  Stock.price
    (snd (fst (Stock.record_trade ex_t2 ex_tea
                 (world_of [] (at_offset 6)))))
  = Stock.price ex_tea.
Proof.
  split.
  - apply (first_trade_sets_price ex_t2 ex_tea (world_of [] (at_offset 5)));
      [reflexivity | vm_compute; discriminate | reflexivity].
  - apply (first_trade_sets_price ex_t2 ex_tea (world_of [] (at_offset 6)));
      [reflexivity | left; reflexivity].
Defined.

Lemma scan_same_figures (now : datetime) (ts1 ts2 : list Trade.t) :
  Forall2 same_figures ts1 ts2 ->
  forall q v : Z, Stock.scan now ts1 q v = Stock.scan now ts2 q v.
Proof.
  induction 1 as [|a b ts1 ts2 (Ht & Hq & Hp) _ IH]; intros q v;
    [reflexivity|].
  simpl. rewrite Ht, Hq, Hp.
  destruct (now - Trade.timestamp b <=? Stock.fifteen_minutes)%Z;
    [apply IH | reflexivity].
Qed.

(** X7: the price does not depend on the symbol a trade carries nor on
    whether it is a purchase or a sale: two stocks with the same price whose
    histories agree trade by trade on timestamp, quantity and price get the
    same price from [recalculate_price]. *)
Theorem recalculate_price_ignores_direction
    (s1 s2 : Stock.t) (w : World) :
  Forall2 same_figures (Stock.trades s1) (Stock.trades s2) ->
  Stock.price s1 = Stock.price s2 ->
  fst (fst (Stock.recalculate_price s1 w))
    = fst (fst (Stock.recalculate_price s2 w)).
Proof.
  intros Hsame Hprice. rewrite !recalculate_price_unfold. simpl.
  unfold Stock.recalculate_price_at.
  rewrite (scan_same_figures _ _ _ Hsame).
  destruct (Stock.scan (next_instant w) (Stock.trades s2) 0 0) as [tq tv].
  destruct (0 <? tq)%Z; [|simpl; now rewrite Hprice].
  now destruct (truediv (inject_Z tv) (inject_Z tq)).
Qed.

Lemma recalculate_price_ignores_direction_witness :
  fst (fst (Stock.recalculate_price ex_one_trade (world_of [] ex_ref)))
    = fst (fst (Stock.recalculate_price
                  (Stock.append_trade ex_t2_sale ex_tea)
                  (world_of [] ex_ref))) /\
  Trade.isSale ex_t2 <> Trade.isSale ex_t2_sale.
Proof.
  split; [|discriminate].
  apply (recalculate_price_ignores_direction ex_one_trade
           (Stock.append_trade ex_t2_sale ex_tea) (world_of [] ex_ref)).
  - repeat constructor.
  - reflexivity.
Defined.

Lemma recalculate_price_newest_first_witness :
  newest_first (Stock.trades ex_newest_first) /\
  Stock.recalculate_price ex_newest_first (world_of [] ex_ref)
    = FullScan.recalculate_price ex_newest_first (world_of [] ex_ref).
Proof.
  assert (Hsorted : newest_first (Stock.trades ex_newest_first))
    by (repeat constructor; vm_compute; discriminate).
  split; [exact Hsorted|].
  apply (recalculate_price_newest_first ex_newest_first
           (world_of [] ex_ref) Hsorted).
Defined.

(** * Further properties of the registry *)

Lemma engine_record_trade_unfold (symbol : string) (trade : Trade.t)
    (e : StockExchangeEngine.t) (w : World) (stock : Stock.t) :
  StockExchangeEngine.all_stocks e !! symbol = Some stock ->
  StockExchangeEngine.record_trade symbol trade e w =
    (Ok tt,
     StockExchangeEngine.mk
       (<[symbol := snd (Stock.recalculate_price_at (next_instant w)
                           (Stock.append_trade trade stock))]>
          (StockExchangeEngine.all_stocks e)),
     after_read w).
Proof.
  intros Hsome. unfold StockExchangeEngine.record_trade.
  now rewrite Hsome, stock_record_trade_unfold.
Qed.

Lemma engine_record_trade_unknown (symbol : string) (trade : Trade.t)
    (e : StockExchangeEngine.t) (w : World) :
  StockExchangeEngine.all_stocks e !! symbol = None ->
  StockExchangeEngine.record_trade symbol trade e w = (Ok tt, e, w).
Proof.
  intros Hnone. unfold StockExchangeEngine.record_trade. now rewrite Hnone.
Qed.

(** A call leaves alone the stocks under the symbols it does not name. *)
Lemma do_call_other (c : call) (e : StockExchangeEngine.t) (w : World)
    (k : string) :
  k <> call_symbol c ->
  StockExchangeEngine.all_stocks (fst (do_call c e w)) !! k
    = StockExchangeEngine.all_stocks e !! k.
Proof.
  intros Hne. destruct c as [sym ip pc pv ld fd | sym trade]; simpl in *.
  - unfold StockExchangeEngine.add_stock.
    destruct (StockExchangeEngine.all_stocks e !! sym); [reflexivity|].
    simpl. now apply lookup_insert_ne.
  - destruct (StockExchangeEngine.all_stocks e !! sym) as [stock|] eqn:E.
    + rewrite (engine_record_trade_unfold _ _ _ _ _ E). simpl.
      now apply lookup_insert_ne.
    + now rewrite (engine_record_trade_unknown _ _ _ _ E).
Qed.

(** A call keeps every stock that is registered: what it was built with
    stays, and its history can only get longer at its end. *)
Lemma do_call_keeps (c : call) (e : StockExchangeEngine.t) (w : World)
    (k : string) (s : Stock.t) :
  StockExchangeEngine.all_stocks e !! k = Some s ->
  exists (s' : Stock.t) (more : list Trade.t),
    StockExchangeEngine.all_stocks (fst (do_call c e w)) !! k = Some s' /\
    static_attributes s' = static_attributes s /\
    Stock.trades s' = Stock.trades s ++ more.
Proof.
  intros Hk.
  destruct (decide (k = call_symbol c)) as [->|Hne].
  - destruct c as [sym ip pc pv ld fd | sym trade]; simpl in *.
    + rewrite add_stock_present by (now rewrite Hk). simpl.
      exists s, []. now rewrite app_nil_r.
    + rewrite (engine_record_trade_unfold _ _ _ _ _ Hk). simpl.
      rewrite lookup_insert_eq. eexists _, [trade].
      split; [reflexivity|].
      now rewrite recalculate_price_at_static, recalculate_price_at_trades.
  - rewrite do_call_other by exact Hne.
    exists s, []. now rewrite app_nil_r.
Qed.

(** A stock that a call has put in the registry is the one [add_stock]
    builds for the symbol it is stored under. *)
Lemma do_call_new (c : call) (e : StockExchangeEngine.t) (w : World)
    (k : string) (s' : Stock.t) :
  StockExchangeEngine.all_stocks e !! k = None ->
  StockExchangeEngine.all_stocks (fst (do_call c e w)) !! k = Some s' ->
  Stock.symbol s' = k /\ Stock.trades s' = [] /\ k = call_symbol c.
Proof.
  intros Hnone Hsome.
  destruct (decide (k = call_symbol c)) as [->|Hne].
  - destruct c as [sym ip pc pv ld fd | sym trade]; simpl in *.
    + rewrite add_stock_absent in Hsome by exact Hnone. simpl in Hsome.
      rewrite lookup_insert_eq in Hsome. injection Hsome as <-. auto.
    + rewrite engine_record_trade_unknown in Hsome by exact Hnone.
      simpl in Hsome. congruence.
  - rewrite do_call_other in Hsome by exact Hne. congruence.
Qed.

Lemma do_calls_step (c : call) (cs : list call)
    (e : StockExchangeEngine.t) (w : World) :
  do_calls (c :: cs) e w
    = do_calls cs (fst (do_call c e w)) (snd (do_call c e w)).
Proof.
  simpl. now destruct (do_call c e w).
Qed.

Lemma do_calls_keeps (cs : list call) :
  forall (e : StockExchangeEngine.t) (w : World) (k : string) (s : Stock.t),
    StockExchangeEngine.all_stocks e !! k = Some s ->
    exists (s' : Stock.t) (more : list Trade.t),
      StockExchangeEngine.all_stocks (fst (do_calls cs e w)) !! k
        = Some s' /\
      static_attributes s' = static_attributes s /\
      Stock.trades s' = Stock.trades s ++ more.
Proof.
  induction cs as [|c cs IH]; intros e w k s Hk.
  - exists s, []. simpl. now rewrite app_nil_r.
  - rewrite do_calls_step.
    destruct (do_call_keeps c e w k s Hk) as (s1 & more1 & H1 & Hst1 & Htr1).
    destruct (IH _ (snd (do_call c e w)) k s1 H1)
      as (s2 & more2 & H2 & Hst2 & Htr2).
    exists s2, (more1 ++ more2). split; [exact H2|]. split; [congruence|].
    now rewrite Htr2, Htr1, app_assoc.
Qed.

(** X10: whatever calls of [add_stock] and [record_trade] follow, a
    registered stock stays registered under its symbol with the kind, par
    value and dividends it was added with (a later [add_stock] with the same
    symbol does not replace them), and its history only grows at its end:
    no trade is removed or reordered. *)
Theorem registered_stock_persists
    (cs : list call) (e : StockExchangeEngine.t) (w : World)
    (k : string) (s : Stock.t) :
  StockExchangeEngine.get_stock k e = Some s ->
  exists (s' : Stock.t) (more : list Trade.t),
    StockExchangeEngine.get_stock k (fst (do_calls cs e w)) = Some s' /\
    static_attributes s' = static_attributes s /\
    Stock.trades s' = Stock.trades s ++ more.
Proof.
  apply do_calls_keeps.
Qed.

Lemma registered_stock_persists_witness :
  exists (s' : Stock.t) (more : list Trade.t),
    StockExchangeEngine.get_stock "TEA"
      (fst (do_calls [AddStock "TEA" 500 true 1 2 3;
                      RecordTrade "TEA" ex_t3;
                      RecordTrade "XYZ" ex_t2]
              ex_engine (world_of [] ex_ref))) = Some s' /\
    static_attributes s' = static_attributes ex_tea /\
    Stock.trades s' = Stock.trades ex_tea ++ more.
Proof.
  apply (registered_stock_persists
           [AddStock "TEA" 500 true 1 2 3;
            RecordTrade "TEA" ex_t3;
            RecordTrade "XYZ" ex_t2]
           ex_engine (world_of [] ex_ref) "TEA" ex_tea).
  reflexivity.
Defined.

Lemma do_calls_key_invariant (cs : list call) :
  forall (e : StockExchangeEngine.t) (w : World),
    (forall (k : string) (s : Stock.t),
       StockExchangeEngine.all_stocks e !! k = Some s ->
       Stock.symbol s = k) ->
    forall (k : string) (s : Stock.t),
      StockExchangeEngine.all_stocks (fst (do_calls cs e w)) !! k = Some s ->
      Stock.symbol s = k.
Proof.
  induction cs as [|c cs IH]; intros e w Hinv k s Hk; [now apply Hinv|].
  rewrite do_calls_step in Hk.
  apply (IH (fst (do_call c e w)) (snd (do_call c e w))); [|exact Hk].
  clear k s Hk. intros k s Hk.
  destruct (StockExchangeEngine.all_stocks e !! k) as [s0|] eqn:E.
  - destruct (do_call_keeps c e w k s0 E) as (s1 & more & H1 & Hst & _).
    rewrite H1 in Hk. injection Hk as <-.
    unfold static_attributes in Hst. injection Hst as Hsym _ _ _ _.
    rewrite Hsym. now apply Hinv.
  - now destruct (do_call_new c e w k s E Hk).
Qed.

(** A trade found in a history after a call was there before the call, or
    is the trade the call records under that symbol. *)
Lemma do_call_history (c : call) (e : StockExchangeEngine.t) (w : World)
    (k : string) (s' : Stock.t) (t : Trade.t) :
  StockExchangeEngine.all_stocks (fst (do_call c e w)) !! k = Some s' ->
  In t (Stock.trades s') ->
  (exists s : Stock.t,
     StockExchangeEngine.all_stocks e !! k = Some s /\
     In t (Stock.trades s)) \/
  c = RecordTrade k t.
Proof.
  intros Hsome Hin.
  destruct (StockExchangeEngine.all_stocks e !! k) as [s|] eqn:E.
  - destruct (decide (k = call_symbol c)) as [->|Hne].
    + destruct c as [sym ip pc pv ld fd | sym trade]; simpl in *.
      * rewrite add_stock_present in Hsome by (now rewrite E).
        simpl in Hsome. left. exists s. split; congruence.
      * rewrite (engine_record_trade_unfold _ _ _ _ _ E) in Hsome.
        simpl in Hsome. rewrite lookup_insert_eq in Hsome.
        injection Hsome as <-.
        rewrite recalculate_price_at_trades in Hin. simpl in Hin.
        apply in_app_or in Hin. destruct Hin as [Hin|[->|[]]].
        -- left. now exists s.
        -- now right.
    + rewrite do_call_other in Hsome by exact Hne.
      left. exists s. split; congruence.
  - destruct (do_call_new c e w k s' E Hsome) as (_ & Hnil & _).
    rewrite Hnil in Hin. destruct Hin.
Qed.

Lemma do_calls_history (cs : list call) :
  forall (e : StockExchangeEngine.t) (w : World) (k : string)
         (s' : Stock.t) (t : Trade.t),
    StockExchangeEngine.all_stocks (fst (do_calls cs e w)) !! k = Some s' ->
    In t (Stock.trades s') ->
    (exists s : Stock.t,
       StockExchangeEngine.all_stocks e !! k = Some s /\
       In t (Stock.trades s)) \/
    In (RecordTrade k t) cs.
Proof.
  induction cs as [|c cs IH]; intros e w k s' t Hsome Hin.
  - left. now exists s'.
  - rewrite do_calls_step in Hsome.
    destruct (IH _ _ k s' t Hsome Hin) as [(s1 & H1 & Hin1)|Hlater].
    + destruct (do_call_history c e w k s1 t H1 Hin1) as [Hbefore| ->].
      * now left.
      * right. now left.
    + right. now right.
Qed.

(** X11: in a registry built from the empty one by calls of [add_stock] and
    [record_trade], every stock is stored under its own symbol, and its
    history holds only trades that were passed to [record_trade] together
    with that symbol: a trade recorded under another symbol, registered or
    not, is never found there. *)
Theorem registry_keys_are_symbols (cs : list call) (w : World)
    (k : string) (s : Stock.t) :
  StockExchangeEngine.get_stock k
    (fst (do_calls cs StockExchangeEngine.init w)) = Some s ->
  Stock.symbol s = k /\
  forall t : Trade.t, In t (Stock.trades s) -> In (RecordTrade k t) cs.
Proof.
  intros Hsome. split.
  - apply (do_calls_key_invariant cs StockExchangeEngine.init w);
      [|exact Hsome].
    intros k0 s0 H0. simpl in H0. now rewrite lookup_empty in H0.
  - intros t Hin.
    destruct (do_calls_history cs _ _ _ _ _ Hsome Hin)
      as [(s0 & H0 & _)|Hcs]; [|exact Hcs].
    simpl in H0. now rewrite lookup_empty in H0.
Qed.

Lemma registry_keys_are_symbols_witness :
  exists s : Stock.t,
    StockExchangeEngine.get_stock "TEA"
      (fst (do_calls [AddStock "TEA" 120 false 100 0 0;
                      RecordTrade "POP" ex_t1;
                      RecordTrade "TEA" ex_t3]
              StockExchangeEngine.init (world_of [] ex_ref))) = Some s /\
    Stock.symbol s = "TEA" /\
    forall t : Trade.t,
      In t (Stock.trades s) ->
      In (RecordTrade "TEA" t)
         [AddStock "TEA" 120 false 100 0 0;
          RecordTrade "POP" ex_t1;
          RecordTrade "TEA" ex_t3].
Proof.
  eexists. split; [vm_compute; reflexivity|].
  apply (registry_keys_are_symbols
           [AddStock "TEA" 120 false 100 0 0;
            RecordTrade "POP" ex_t1;
            RecordTrade "TEA" ex_t3]
           (world_of [] ex_ref) "TEA").
  vm_compute. reflexivity.
Defined.

Lemma do_calls_other (cs : list call) :
  forall (e : StockExchangeEngine.t) (w : World) (k : string),
    Forall (fun c => call_symbol c <> k) cs ->
    StockExchangeEngine.all_stocks (fst (do_calls cs e w)) !! k
      = StockExchangeEngine.all_stocks e !! k.
Proof.
  induction cs as [|c cs IH]; intros e w k Hall; [reflexivity|].
  apply Forall_cons in Hall. destruct Hall as [Hc Hcs].
  rewrite do_calls_step, IH by exact Hcs.
  apply do_call_other. congruence.
Qed.

(** X12: the stocks are independent of each other: calls of [add_stock] and
    [record_trade] that name other symbols leave the stock under a symbol
    (its price, its history, its attributes) exactly as it is, and leave an
    unregistered symbol unregistered. *)
Theorem calls_on_other_symbols (cs : list call)
    (e : StockExchangeEngine.t) (w : World) (k : string) :
  Forall (fun c => call_symbol c <> k) cs ->
  StockExchangeEngine.get_stock k (fst (do_calls cs e w))
    = StockExchangeEngine.get_stock k e.
Proof.
  apply do_calls_other.
Qed.

Lemma calls_on_other_symbols_witness :
  StockExchangeEngine.get_stock "POP"
    (fst (do_calls [RecordTrade "TEA" ex_t3;
                    AddStock "GIN" 190 true 100 8 (2 # 100);
                    RecordTrade "GIN" ex_t2]
            ex_engine (world_of [] ex_ref)))
  = Some ex_pop.
Proof.
  rewrite (calls_on_other_symbols
             [RecordTrade "TEA" ex_t3;
              AddStock "GIN" 190 true 100 8 (2 # 100);
              RecordTrade "GIN" ex_t2]
             ex_engine (world_of [] ex_ref) "POP").
  - reflexivity.
  - repeat constructor; discriminate.
Defined.

Lemma do_call_symbols (c : call) (e : StockExchangeEngine.t) (w : World) :
  StockExchangeEngine.get_symbols (fst (do_call c e w))
    = StockExchangeEngine.get_symbols e ∪ added_symbols [c].
Proof.
  unfold StockExchangeEngine.get_symbols.
  destruct c as [sym ip pc pv ld fd | sym trade]; simpl.
  - unfold StockExchangeEngine.add_stock.
    destruct (StockExchangeEngine.all_stocks e !! sym) as [s|] eqn:E; simpl.
    + apply (elem_of_dom_2 (D := gset string)) in E. set_solver.
    + rewrite dom_insert_L. set_solver.
  - destruct (StockExchangeEngine.all_stocks e !! sym) as [s|] eqn:E.
    + rewrite (engine_record_trade_unfold _ _ _ _ _ E). simpl.
      rewrite dom_insert_L.
      apply (elem_of_dom_2 (D := gset string)) in E. set_solver.
    + rewrite (engine_record_trade_unknown _ _ _ _ E). simpl. set_solver.
Qed.

(** X13: after any calls of [add_stock] and [record_trade] the symbols of
    the registry are those it had together with the symbols passed to
    [add_stock]: [record_trade] registers nothing, also for an unknown
    symbol, and no call removes a symbol. *)
Theorem get_symbols_after_calls (cs : list call)
    (e : StockExchangeEngine.t) (w : World) :
  StockExchangeEngine.get_symbols (fst (do_calls cs e w))
    = StockExchangeEngine.get_symbols e ∪ added_symbols cs.
Proof.
  revert e w. induction cs as [|c cs IH]; intros e w.
  - simpl. set_solver.
  - rewrite do_calls_step, IH, do_call_symbols.
    destruct c; simpl; set_solver.
Qed.

(** * Further properties of the all share index *)

Lemma Qmult_swap (y a b : Q) : (y * a * b = y * b * a)%Q.
Proof.
  destruct y as [yn yd], a as [an ad], b as [bn bd].
  unfold Qmult. simpl. f_equal; lia.
Qed.

(** X14: registering a stock under a new symbol multiplies the product of
    the prices, of which the index is the root, by the initial price of the
    stock; [add_stock] with a symbol that is registered leaves the product
    as it is. *)
Theorem prices_product_add_stock
    (symbol : string) (initial_price : Z) (preferredVsCommon : bool)
    (par_value last_dividend : Z) (fixed_dividend : Q)
    (self : StockExchangeEngine.t) :
  let after :=
    snd (StockExchangeEngine.add_stock symbol initial_price
           preferredVsCommon par_value last_dividend fixed_dividend self) in
  (StockExchangeEngine.all_stocks self !! symbol = None ->
     StockExchangeEngine.prices_product after
       = (StockExchangeEngine.prices_product self * inject_Z initial_price)%Q
     /\ StockExchangeEngine.len after = (StockExchangeEngine.len self + 1)%Z)
  /\
  (is_Some (StockExchangeEngine.all_stocks self !! symbol) ->
     StockExchangeEngine.prices_product after
       = StockExchangeEngine.prices_product self
     /\ StockExchangeEngine.len after = StockExchangeEngine.len self).
Proof.
  intros after. subst after. split.
  - intros Hnone. rewrite add_stock_absent by exact Hnone. simpl.
    unfold StockExchangeEngine.prices_product, StockExchangeEngine.len.
    simpl. split.
    + rewrite map_fold_insert_L; [reflexivity | | exact Hnone].
      intros j1 j2 z1 z2 y _ _ _. apply Qmult_swap.
    + rewrite map_size_insert_None by exact Hnone. lia.
  - intros Hsome. now rewrite add_stock_present by exact Hsome.
Qed.

Lemma prices_product_add_stock_witness :
  StockExchangeEngine.prices_product
    (snd (StockExchangeEngine.add_stock "GIN" 190 true 100 8 (2 # 100)
            ex_engine))
  = (StockExchangeEngine.prices_product ex_engine * inject_Z 190)%Q /\
  StockExchangeEngine.prices_product
    (snd (StockExchangeEngine.add_stock "TEA" 500 true 1 2 3 ex_engine))
  = StockExchangeEngine.prices_product ex_engine.
Proof.
  split.
  - apply (prices_product_add_stock "GIN" 190 true 100 8 (2 # 100)
             ex_engine).
    reflexivity.
  - apply (prices_product_add_stock "TEA" 500 true 1 2 3 ex_engine).
    exists ex_tea. reflexivity.
Defined.

(** * Properties of the generators *)

Lemma randint_range (a b : Z) (g : Rng) :
  (a <= b)%Z ->
  exists n : Z,
    randint a b g = (Ok n, mkRng (raw g) (S (used g))) /\
    (a <= n <= b)%Z.
Proof.
  intros Hab. unfold randint, next_raw.
  destruct (Z.leb_spec a b); [|lia].
  eexists. split; [reflexivity|].
  pose proof (Z.mod_pos_bound (raw g (used g)) (b - a + 1)). lia.
Qed.

Lemma randint_empty (a b : Z) (g : Rng) :
  (b < a)%Z -> randint a b g = (Raise ValueError, g).
Proof.
  intros Hab. unfold randint. destruct (Z.leb_spec a b); [lia | reflexivity].
Qed.

Lemma draw_time_deltas_range (n : nat) (min_td max_td : Z) :
  (min_td <= max_td)%Z ->
  forall (g : Rng) (acc : list Z),
  exists l : list Z,
    draw_time_deltas n min_td max_td g acc
      = (Ok (acc ++ l), mkRng (raw g) (used g + n)) /\
    length l = n /\
    Forall (fun d => (min_td <= d <= max_td)%Z) l.
Proof.
  intros Htd. induction n as [|n IH]; intros g acc.
  - exists []. simpl. rewrite app_nil_r, Nat.add_0_r.
    destruct g; auto.
  - destruct (randint_range min_td max_td g Htd) as (d & Hd & Hrange).
    destruct (IH (mkRng (raw g) (S (used g))) (acc ++ [d]))
      as (l & Hl & Hlen & Hall).
    exists (d :: l). simpl. rewrite Hd, Hl. simpl.
    rewrite <- app_assoc. simpl.
    replace (S (used g + n)) with (used g + S n)%nat by lia.
    split; [reflexivity|]. split; [now rewrite Hlen|].
    now constructor.
Qed.

(** X16: with [min_trades <= max_trades] and [min_td <= max_td],
    [generate_random_time_deltas] returns a list in ascending order whose
    elements all lie between [min_td] and [max_td] and whose length is
    the number of trades drawn, between [min_trades] and [max_trades]
    (none when that number is negative); it draws one number more than it
    returns.  With [max_trades < min_trades] it raises [ValueError] and
    draws nothing. *)
Theorem generate_random_time_deltas_spec
    (min_trades max_trades min_td max_td : Z) (g : Rng) :
  ((min_trades <= max_trades)%Z -> (min_td <= max_td)%Z ->
   exists l : list Z,
     generate_random_time_deltas min_trades max_trades min_td max_td g
       = (Ok l, mkRng (raw g) (S (used g) + length l)) /\
     Sorted Z.le l /\
     Forall (fun d => (min_td <= d <= max_td)%Z) l /\
     (Z.max 0 min_trades <= Z.of_nat (length l) <= Z.max 0 max_trades)%Z) /\
  ((max_trades < min_trades)%Z ->
   generate_random_time_deltas min_trades max_trades min_td max_td g
     = (Raise ValueError, g)).
Proof.
  split.
  - intros Htrades Htd. unfold generate_random_time_deltas.
    destruct (randint_range min_trades max_trades g Htrades)
      as (n & Hn & Hrange).
    rewrite Hn.
    destruct (draw_time_deltas_range (Z.to_nat n) min_td max_td Htd
                (mkRng (raw g) (S (used g))) [])
      as (l & Hl & Hlen & Hall).
    rewrite Hl. simpl.
    exists (sorted l). unfold sorted.
    pose proof (merge_sort_Permutation Z.le l) as Hperm.
    rewrite (Permutation_length Hperm), Hlen.
    split; [reflexivity|]. split; [apply Sorted_merge_sort; apply _|].
    split; [now rewrite Hperm | lia].
  - intros Hempty. unfold generate_random_time_deltas.
    now rewrite randint_empty.
Qed.

Lemma generate_random_time_deltas_spec_witness :
  (exists l : list Z,
     generate_random_time_deltas 6 12 1 45 ex_rng
       = (Ok l, mkRng (raw ex_rng) (S (used ex_rng) + length l)) /\
     Sorted Z.le l /\
     Forall (fun d => (1 <= d <= 45)%Z) l /\
     (Z.max 0 6 <= Z.of_nat (length l) <= Z.max 0 12)%Z) /\
  generate_random_time_deltas 12 6 1 45 ex_rng = (Raise ValueError, ex_rng).
Proof.
  split.
  - apply (generate_random_time_deltas_spec 6 12 1 45 ex_rng); lia.
  - apply (generate_random_time_deltas_spec 12 6 1 45 ex_rng). lia.
Defined.

Lemma random_range (g : Rng) :
  (0 <= fst (random g))%Q /\ (fst (random g) < 1)%Q /\
  snd (random g) = mkRng (raw g) (S (used g)).
Proof.
  unfold random, next_raw. cbn [fst snd].
  pose proof (Z.mod_pos_bound (raw g (used g)) (2 ^ 53)) as Hmod.
  assert (Hpow : (Z.pos (2 ^ 53) = 2 ^ 53)%Z) by reflexivity.
  unfold Qle, Qlt. cbn [Qnum Qden]. rewrite Hpow.
  split; [lia|]. split; [lia | reflexivity].
Qed.

Lemma uniform_range (v : Q) (g : Rng) :
  (0 <= v)%Q ->
  (Qabs (fst (uniform (- v) v g)) <= v)%Q /\
  snd (uniform (- v) v g) = mkRng (raw g) (S (used g)).
Proof.
  intros Hv. unfold uniform.
  destruct (random_range g) as (H0 & H1 & Hg).
  destruct (random g) as [x g']. cbn [fst snd] in *. split; [|exact Hg].
  apply Qabs_Qle_condition. split; nra.
Qed.

(** [int] rounds towards zero: it never increases the magnitude. *)
Lemma int_of_abs_le (x : Q) : (inject_Z (Z.abs (int_of x)) <= Qabs x)%Q.
Proof.
  destruct x as [n d]. unfold int_of, Qabs, Qle. cbn [Qnum Qden inject_Z].
  rewrite <- (Z.quot_abs n (Z.pos d)) by lia.
  pose proof (Z.mul_quot_le (Z.abs n) (Z.pos d)) as Hq.
  rewrite (Z.abs_eq (Z.pos d)) by lia. lia.
Qed.

(** X17: with [min_qty <= max_qty] and a price variation that is not
    negative, [generate_random_trade] returns a trade for the symbol given,
    dated [time_delta] minutes before the instant the clock shows, with a
    quantity between [min_qty] and [max_qty] and a price that differs from
    the current price by at most the price variation times the magnitude of
    the current price; it reads the clock once and draws three numbers.
    With [max_qty < min_qty] it raises [ValueError]. *)
Theorem generate_random_trade_spec
    (symbol : string) (time_delta : Z) (price_variation : Q)
    (current_price min_qty max_qty : Z) (w : World) (g : Rng) :
  (0 <= price_variation)%Q ->
  ((min_qty <= max_qty)%Z ->
   exists t : Trade.t,
     generate_random_trade symbol time_delta price_variation current_price
       min_qty max_qty w g
       = (Ok t, after_read w, mkRng (raw g) (used g + 3)) /\
     Trade.symbol t = symbol /\
     Trade.timestamp t = (next_instant w - timedelta_minutes time_delta)%Z /\
     (min_qty <= Trade.quantity t <= max_qty)%Z /\
     (inject_Z (Z.abs (Trade.price t - current_price))
      <= inject_Z (Z.abs current_price) * price_variation)%Q) /\
  ((max_qty < min_qty)%Z ->
   fst (fst (generate_random_trade symbol time_delta price_variation
               current_price min_qty max_qty w g))
     = Raise ValueError).
Proof.
  intros Hv.
  destruct (uniform_range price_variation g Hv) as [Hu Hg1].
  unfold generate_random_trade, datetime_now.
  destruct (uniform (- price_variation) price_variation g) as [u g1].
  cbn [fst snd] in Hu, Hg1. subst g1. split.
  - intros Hqty.
    destruct (randint_range min_qty max_qty
                (mkRng (raw g) (S (used g))) Hqty) as (qty & Hq & Hrange).
    rewrite Hq. cbn [raw used].
    destruct (random_range (mkRng (raw g) (S (S (used g)))))
      as (_ & _ & Hg3).
    destruct (random (mkRng (raw g) (S (S (used g))))) as [x g3].
    cbn [fst snd raw used] in Hg3. subst g3. eexists. split.
    + unfold after_read, datetime_now. cbn [snd].
      replace (used g + 3)%nat with (S (S (S (used g)))) by lia.
      reflexivity.
    + unfold Trade.init, next_instant, datetime_now.
      cbn [Trade.symbol Trade.timestamp Trade.quantity Trade.price fst].
      split; [reflexivity|]. split; [reflexivity|].
      split; [exact Hrange|].
      replace (current_price
               + int_of (inject_Z current_price * u) - current_price)%Z
        with (int_of (inject_Z current_price * u)) by lia.
      eapply Qle_trans; [apply int_of_abs_le|].
      rewrite Qabs_Qmult.
      change (Qabs (inject_Z current_price))
        with (inject_Z (Z.abs current_price)).
      apply Qmult_le_compat_nonneg.
      * split; [unfold Qle; cbn [Qnum Qden inject_Z]; lia | apply Qle_refl].
      * split; [apply Qabs_nonneg | exact Hu].
  - intros Hempty. rewrite randint_empty by exact Hempty. reflexivity.
Qed.

Lemma generate_random_trade_spec_witness :
  exists t : Trade.t,
    generate_random_trade "TEA" 10 (1 # 2) 120 20 120
      (world_of [] ex_ref) ex_rng
      = (Ok t, after_read (world_of [] ex_ref),
         mkRng (raw ex_rng) (used ex_rng + 3)) /\
    Trade.symbol t = "TEA" /\
    Trade.timestamp t
      = (next_instant (world_of [] ex_ref) - timedelta_minutes 10)%Z /\
    (20 <= Trade.quantity t <= 120)%Z /\
    (inject_Z (Z.abs (Trade.price t - 120))
     <= inject_Z (Z.abs 120) * (1 # 2))%Q.
Proof.
  apply (generate_random_trade_spec "TEA" 10 (1 # 2) 120 20 120
           (world_of [] ex_ref) ex_rng).
  - vm_compute. discriminate.
  - lia.
Defined.
